(** * botbuilder-adapter-facebook: the [FacebookAPI] client

    A shallow embedding of [src/facebook_api.ts] and the properties of its
    request construction, outcome handling and configuration.

    The class is embedded over a small model of the JavaScript data it
    handles: [undefined], [null], booleans, the safe integers, strings,
    plain objects living in a heap of property lists (so that object
    identity and the allocation of default arguments are visible), and
    native error objects.  The two collaborators the file
    imports, [request] (the HTTP transport) and [crypto] (HMAC-SHA-256), are
    black boxes and appear as Section variables. *)

From Stdlib Require Import String Ascii List ZArith NArith Bool Lia.
From Stdlib Require Import DecimalString Sorted Permutation.
Import ListNotations.

Local Open Scope list_scope.
Local Open Scope string_scope.

(* ================================================================== *)
(** ** JavaScript values *)
(* ================================================================== *)

Module Js.

(** Heap locations: an object is known by the place it was allocated at. *)
Definition Loc := nat.

(** The native error constructors the program and the engine use. *)
Inductive ErrorKind := Error | TypeError.

(** The safe integers: those of magnitude at most [2^53 - 1].  A double
    holds each of them exactly and [Number::toString] prints each of them
    in full. *)
Definition safe (n : Z) : bool := (Z.abs n <=? 9007199254740991)%Z.

(** The numbers of the model are the safe integers. *)
Record Number := {
  value : Z;
  value_safe : safe value = true
}.

(** The number [n], for a safe [n] (and [0] for any other). *)
Definition num (n : Z) : Number :=
  match safe n as b return safe n = b -> Number with
  | true => fun H => {| value := n; value_safe := H |}
  | false => fun _ => {| value := 0%Z; value_safe := eq_refl |}
  end eq_refl.

(** Values.  A [string] lists the UTF-16 code units of a JavaScript string,
    one character for each unit (so the strings of the model are those
    with units below 256, and [String.length] is their [length]); plain
    objects are references into the heap; [JErr] is a native error object
    with its [message]. *)
Inductive JsValue :=
| JUndefined
| JNull
| JBool (b : bool)
| JNum (n : Number)
| JStr (s : string)
| JRef (l : Loc)
| JErr (k : ErrorKind) (msg : string).

(** The own enumerable data properties of a plain object (one created by
    [{}] or by the JSON decoder, with [Object.prototype] above it), in the
    order in which they were created.  No value is a function, so no
    property is callable. *)
Definition Props := list (string * JsValue).

(** The heap: [nth l h] is the object allocated at [l]. *)
Definition Heap := list Props.

(** A location that holds no object reads as an object without properties. *)
Definition deref (h : Heap) (l : Loc) : Props := nth l h [].

Definition allocated (h : Heap) (l : Loc) : Prop := l < length h.

(** Completion of an evaluation: a value, or a thrown value. *)
Inductive Completion (A : Type) :=
| Normal (a : A)
| Throw (e : JsValue).
Arguments Normal {A} a.
Arguments Throw {A} e.

(** *** Coercions *)

(** [ToBoolean]: what [if (v)], [!v] and [v || w] test. *)
Definition ToBoolean (v : JsValue) : bool :=
  match v with
  | JUndefined | JNull => false
  | JBool b => b
  | JNum n => negb (value n =? 0)%Z
  | JStr s => negb (s =? "")
  | JRef _ | JErr _ _ => true
  end.

Definition error_name (k : ErrorKind) : string :=
  match k with Error => "Error" | TypeError => "TypeError" end.

(** *** Property keys *)

Definition digit_of (c : ascii) : option N :=
  let n := N_of_ascii c in
  if ((48 <=? n) && (n <=? 57))%N then Some (n - 48)%N else None.

Fixpoint digits_value (acc : N) (s : string) : option N :=
  match s with
  | EmptyString => Some acc
  | String c r =>
      match digit_of c with
      | Some d => digits_value (10 * acc + d)%N r
      | None => None
      end
  end.

(** A key is an array index when it is the canonical decimal form of an
    integer in [0, 2^32 - 2]. *)
Definition array_index (k : string) : option N :=
  match k with
  | EmptyString => None
  | String c r =>
      if (c =? "0")%char then
        (if r =? "" then Some 0%N else None)
      else
        match digits_value 0 k with
        | Some n => if (n <? 2 ^ 32 - 1)%N then Some n else None
        | None => None
        end
  end.

Definition is_array_index (k : string) : bool :=
  match array_index k with Some _ => true | None => false end.

(** Insertion of an index key into a list sorted by index. *)
Fixpoint insert_index (n : N) (k : string) (l : list (N * string)) : list (N * string) :=
  match l with
  | [] => [(n, k)]
  | (m, k') :: r =>
      if (n <=? m)%N then (n, k) :: l else (m, k') :: insert_index n k r
  end.

Definition index_le (a b : N * string) : Prop := (fst a <= fst b)%N.

Fixpoint index_keys (ps : Props) : list (N * string) :=
  match ps with
  | [] => []
  | (k, _) :: r =>
      match array_index k with
      | Some n => insert_index n k (index_keys r)
      | None => index_keys r
      end
  end.

Fixpoint string_keys (ps : Props) : list string :=
  match ps with
  | [] => []
  | (k, _) :: r =>
      if is_array_index k then string_keys r else k :: string_keys r
  end.

(** [OrdinaryOwnPropertyKeys]: array indices in ascending numeric order,
    then the other keys in the order of their creation. *)
Definition own_keys (ps : Props) : list string :=
  (map snd (index_keys ps) ++ string_keys ps)%list.

Fixpoint lookup (k : string) (ps : Props) : option JsValue :=
  match ps with
  | [] => None
  | (k', v) :: r => if k' =? k then Some v else lookup k r
  end.

Definition has_key (k : string) (ps : Props) : bool :=
  match lookup k ps with Some _ => true | None => false end.

(** *** Conversion to a string *)

Definition cannot_convert : JsValue :=
  JErr TypeError "Cannot convert object to primitive value".

(** [ToString], as a template literal applies it to [${v}].  For an object
    it goes through [toString] and then [valueOf]: an object without an own
    [toString] inherits [Object.prototype.toString]; one with an own
    [toString], which is not callable, is left with [valueOf], which gives
    no primitive, and the conversion throws a [TypeError]. *)
Definition ToString (h : Heap) (v : JsValue) : Completion string :=
  match v with
  | JUndefined => Normal "undefined"
  | JNull => Normal "null"
  | JBool true => Normal "true"
  | JBool false => Normal "false"
  | JNum n => Normal (NilZero.string_of_int (Z.to_int (value n)))
  | JStr s => Normal s
  | JRef l =>
      if has_key "toString" (deref h l) then Throw cannot_convert
      else Normal "[object Object]"
  | JErr k msg =>
      Normal (if msg =? "" then error_name k else error_name k ++ ": " ++ msg)
  end.

(** *** Property access *)

(** Characters of a string primitive read as its index properties. *)
Definition char_at (s : string) (i : nat) : JsValue :=
  if (i <? String.length s)%nat then JStr (substring i 1 s) else JUndefined.

(** [v[k]] for a [v] that is neither [undefined] nor [null], at the keys
    the program reads: own keys, [error] and [message] ([Object.prototype]
    has neither of the two). *)
Definition member (h : Heap) (v : JsValue) (k : string) : JsValue :=
  match v with
  | JRef l =>
      match lookup k (deref h l) with Some x => x | None => JUndefined end
  | JStr s =>
      match array_index k with
      | Some i => char_at s (N.to_nat i)
      | None =>
          if k =? "length" then JNum (num (Z.of_nat (String.length s)))
          else JUndefined
      end
  | JErr _ msg => if k =? "message" then JStr msg else JUndefined
  | _ => JUndefined
  end.

Definition cannot_read (v : JsValue) (k : string) : JsValue :=
  JErr TypeError
       ("Cannot read properties of "
          ++ match v with JNull => "null" | _ => "undefined" end
          ++ " (reading '" ++ k ++ "')").

(** [v.k] and [v[k]]: reading a property of [undefined] or [null] throws a
    [TypeError]. *)
Definition Get (h : Heap) (v : JsValue) (k : string) : Completion JsValue :=
  match v with
  | JUndefined | JNull => Throw (cannot_read v k)
  | _ => Normal (member h v k)
  end.

(** *** Enumeration *)

Definition decimal (n : nat) : string :=
  NilZero.string_of_uint (Nat.to_uint n).

(** The keys [for (const key in v)] visits, in order: the own keys of an
    object; the indices of the code units of a string; none for any other
    value. *)
Definition for_in_keys (h : Heap) (v : JsValue) : list string :=
  match v with
  | JRef l => own_keys (deref h l)
  | JStr s => map decimal (seq 0 (String.length s))
  | _ => []
  end.

End Js.
Export Js.

(* ================================================================== *)
(** ** The client *)
(* ================================================================== *)

(** The private fields of the class.  [token] is a non-empty string once
    the constructor has returned; [secret] is kept as it was passed, [None]
    standing for an argument that was left out ([undefined]). *)
Record FacebookAPI := {
  token : string;
  secret : option string;
  api_host : string;
  api_version : string
}.

(** The options object handed to [request]. *)
Record Request := {
  method : string;
  json : bool;
  body : JsValue;
  uri : string
}.

(** The arguments [request] calls its callback with. *)
Record Response := {
  cb_err : JsValue;
  cb_res : JsValue;
  cb_body : JsValue
}.

(** How one call ends: the promise is resolved, or rejected, or the
    callback threw before settling it (the exception escapes into the
    transport and the promise stays pending). *)
Inductive Outcome :=
| Resolved (v : JsValue)
| Rejected (reason : JsValue)
| Faulted (e : JsValue).

Definition settled (o : Outcome) : bool :=
  match o with Faulted _ => false | _ => true end.

(** [new FacebookAPI(token, secret, api_host, api_version)].  An argument
    typed [string] in the source is an [option string] here, [None] being the
    omitted argument; a default initialiser applies exactly then. *)
Definition constructor (token secret api_host api_version : option string)
  : Completion FacebookAPI :=
  let api_host := match api_host with Some x => x | None => "graph.facebook.com" end in
  let api_version := match api_version with Some x => x | None => "v3.2" end in
  match token with
  | None | Some "" => Throw (JErr Error "Token is required!")
  | Some tok =>
      Normal {| token := tok; secret := secret;
                api_host := api_host; api_version := api_version |}
  end.

(** The callback passed to [request] (lines 65-73). *)
Definition callback (h : Heap) (err res body : JsValue) : Outcome :=
  if ToBoolean err then Rejected err
  else
    match Get h body "error" with
    | Throw e => Faulted e
    | Normal error =>
        if ToBoolean error then
          match Get h error "message" with
          | Throw e => Faulted e
          | Normal message => Rejected message
          end
        else Resolved body
    end.

(** One round of the loop of lines 55-57. *)
Definition add_entry (h : Heap) (query : JsValue)
  (acc : Completion string) (key : string) : Completion string :=
  match acc with
  | Throw e => Throw e
  | Normal queryString =>
      match Get h query key with
      | Throw e => Throw e
      | Normal v =>
          match ToString h v with
          | Throw e => Throw e
          | Normal s => Normal (queryString ++ (key ++ "=" ++ s ++ "&"))
          end
      end
  end.

(** Lines 53-57: [queryString] after the loop. *)
Definition build_query (h : Heap) (query : JsValue) : Completion string :=
  fold_left (add_entry h query) (for_in_keys h query) (Normal "?").

(** The template literal of line 64. *)
Definition request_uri (this : FacebookAPI) (path queryString proof : string) : string :=
  "https://" ++ api_host this ++ "/" ++ api_version this ++ path ++ queryString
    ++ "access_token=" ++ token this ++ "&appsecret_proof=" ++ proof.

(* ================================================================== *)
(** ** The specification's reading of [callAPI] *)
(* ================================================================== *)

Module Spec.

(** "each query entry serialized as key=value&": the entries, each a key
    with its value as a string, one after the other in the order of the
    list. *)
Fixpoint serialize (ps : list (string * string)) : string :=
  match ps with
  | [] => ""
  | (k, v) :: r => k ++ "=" ++ v ++ "&" ++ serialize r
  end.

(** The request URL as the specification composes it from the entries
    [ps] of the query. *)
Definition url (this : FacebookAPI) (path : string)
  (ps : list (string * string)) (proof : string) : string :=
  "https://" ++ api_host this ++ "/" ++ api_version this ++ path ++ "?"
    ++ serialize ps
    ++ "access_token=" ++ token this ++ "&appsecret_proof=" ++ proof.

(** "the decoded body contains an error field with a message": the message,
    when there is one. *)
Definition error_message (h : Heap) (body : JsValue) : option JsValue :=
  match body with
  | JRef l =>
      match lookup "error" (deref h l) with
      | Some (JRef e) => lookup "message" (deref h e)
      | _ => None
      end
  | _ => None
  end.

(** The three outcomes in the priority order of the specification. *)
Definition call_outcome (h : Heap) (err body : JsValue) : Outcome :=
  if ToBoolean err then Rejected err
  else
    match error_message h body with
    | Some message => Rejected message
    | None => Resolved body
    end.

End Spec.

(** The entries of an object in the order [for ... in] visits them, each
    key with the value [query[key]] reads. *)
Definition enumerated (ps : Props) : Props :=
  map (fun k => (k, match lookup k ps with Some v => v | None => JUndefined end))
      (own_keys ps).

(** The entries with their values converted to strings, first to last; the
    first conversion that throws ends it. *)
Fixpoint render_entries (h : Heap) (ps : Props)
  : Completion (list (string * string)) :=
  match ps with
  | [] => Normal []
  | (k, v) :: r =>
      match ToString h v with
      | Throw e => Throw e
      | Normal s =>
          match render_entries h r with
          | Throw e => Throw e
          | Normal es => Normal ((k, s) :: es)
          end
      end
  end.

(** "v has a property k" for the values of the model. *)
Definition has_property (h : Heap) (v : JsValue) (k : string) : bool :=
  match v with
  | JRef l => has_key k (deref h l)
  | JStr s =>
      match array_index k with
      | Some i => (N.to_nat i <? String.length s)%nat
      | None => k =? "length"
      end
  | JErr _ _ => k =? "message"
  | _ => false
  end.

Definition nullish (v : JsValue) : bool :=
  match v with JUndefined | JNull => true | _ => false end.

(** *** A transport and a digest to run the methods with *)

Module Sample.

(** A digest that does not look at its arguments: the HMAC-SHA-256 of the
    empty message under the empty key. *)
Definition digest (algorithm key data : string) : string :=
  "b613679a0814d9ec772f95d778c35fc5ff1697c493715653c6c712144292c5ad".

(** A transport that answers every request with the body [{ id: '123' }]. *)
Definition transport (r : Request) (h : Heap) (n : unit)
  : Response * list Props * unit :=
  ({| cb_err := JNull; cb_res := JNull; cb_body := JRef (length h) |},
   [[("id", JStr "123")]], tt).

Definition client : FacebookAPI :=
  {| token := "TOKEN"; secret := Some "SECRET";
     api_host := "graph.facebook.com"; api_version := "v3.2" |}.

End Sample.

(* ================================================================== *)
(** ** Methods, over the state they run in *)
(* ================================================================== *)

Section Client.

(** [crypto]: [hmac_hex algorithm key data] is what
    [crypto.createHmac(algorithm, key).update(data).digest('hex')] returns. *)
Variable hmac_hex : string -> string -> string -> string.

(** [request]: the state of the network, and the transport itself.  Given
    the options object, the heap (it reads the body from it) and the
    network, it yields the callback's arguments, the objects decoding the
    response allocated, and the network afterwards. *)
Variable Net : Type.
Variable transport : Request -> Heap -> Net -> Response * list Props * Net.

(** What a method can see: the client it is called on, the heap and the
    network. *)
Record World := {
  this : FacebookAPI;
  heap : Heap;
  net : Net
}.

Definition M (A : Type) : Type := World -> A * World.

Definition ret {A} (a : A) : M A := fun w => (a, w).

Definition bind {A B} (c : M A) (k : A -> M B) : M B :=
  fun w => let (a, w') := c w in k a w'.

Notation "x <- c ;; k" := (bind c (fun x => k))
  (at level 61, c at next level, right associativity).

Definition get_this : M FacebookAPI := fun w => (this w, w).

Definition get_heap : M Heap := fun w => (heap w, w).

(** An object literal: a new object at the next free location. *)
Definition alloc (ps : Props) : M Loc :=
  fun w => (length (heap w),
            {| this := this w; heap := (heap w ++ [ps])%list; net := net w |}).

(** The call of [request] together with the run of the transport up to the
    callback. *)
Definition request (r : Request) : M Response :=
  fun w =>
    match transport r (heap w) (net w) with
    | (resp, objs, n) =>
        (resp, {| this := this w; heap := (heap w ++ objs)%list; net := n |})
    end.

(** [s || ''] *)
Definition or_empty (s : option string) : string :=
  match s with
  | Some x => if x =? "" then "" else x
  | None => ""
  end.

(** Lines 107-110. *)
Definition getAppSecretProof (access_token : string) (app_secret : option string)
  : M string :=
  ret (hmac_hex "sha256" (or_empty app_secret) access_token).

(** A parameter [p: any = {}]: the initialiser runs, and allocates, when the
    argument is [undefined]. *)
Definition default_object (v : JsValue) : M JsValue :=
  match v with
  | JUndefined => l <- alloc [] ;; ret (JRef l)
  | _ => ret v
  end.

(** Binding of the parameters of [callAPI] (line 50), left to right. *)
Definition callAPI_params (method : option string) (payload query : JsValue)
  : M (string * JsValue * JsValue) :=
  let method := match method with Some m => m | None => "POST" end in
  payload <- default_object payload ;;
  query <- default_object query ;;
  ret (method, payload, query).

(** Lines 51-64: the options object [request] is called with. *)
Definition callAPI_request (path method : string) (payload query : JsValue)
  : M (Completion Request) :=
  self <- get_this ;;
  proof <- getAppSecretProof (token self) (secret self) ;;
  h <- get_heap ;;
  match build_query h query with
  | Throw e => ret (Throw e)
  | Normal queryString =>
      self <- get_this ;;
      ret (Normal {| method := method; json := true; body := payload;
                     uri := request_uri self path queryString proof |})
  end.

(** [callAPI] (lines 50-75).  An exception in the body of the [async]
    function rejects its promise. *)
Definition callAPI_body (path method : string) (payload query : JsValue) : M Outcome :=
  r <- callAPI_request path method payload query ;;
  match r with
  | Throw e => ret (Rejected e)
  | Normal options =>
      resp <- request options ;;
      h <- get_heap ;;
      ret (callback h (cb_err resp) (cb_res resp) (cb_body resp))
  end.

Definition callAPI (path : string) (method : option string) (payload query : JsValue)
  : M Outcome :=
  p <- callAPI_params method payload query ;;
  let '(method, payload, query) := p in
  callAPI_body path method payload query.

(** [get] (lines 85-87): the [{}] of its body is a new object. *)
Definition get (path : string) (query : JsValue) : M Outcome :=
  l <- alloc [] ;;
  callAPI path (Some "GET") (JRef l) query.

(** [post] (lines 98-100). *)
Definition post (path : string) (body query : JsValue) : M Outcome :=
  callAPI path (Some "POST") body query.

(** *** Sequences of calls *)

Inductive Op :=
| OpCallAPI (path : string) (method : option string) (payload query : JsValue)
| OpGet (path : string) (query : JsValue)
| OpPost (path : string) (body query : JsValue)
| OpGetAppSecretProof (access_token : string) (app_secret : option string).

Definition perform (op : Op) (w : World) : World :=
  match op with
  | OpCallAPI path method payload query => snd (callAPI path method payload query w)
  | OpGet path query => snd (get path query w)
  | OpPost path body query => snd (post path body query w)
  | OpGetAppSecretProof access_token app_secret =>
      snd (getAppSecretProof access_token app_secret w)
  end.

Definition run (ops : list Op) (w : World) : World :=
  fold_left (fun w op => perform op w) ops w.

(** *** The frame of a method *)

(** [w'] is [w] with the same client and with objects added to the heap:
    nothing that existed was changed. *)
Definition extends (w w' : World) : Prop :=
  this w' = this w /\ exists objs, heap w' = (heap w ++ objs)%list.

Definition framed {A} (c : M A) : Prop :=
  forall w, extends w (snd (c w)).

(* ================================================================== *)
(** ** Properties *)
(* ================================================================== *)

(** *** Strings and keys *)

Lemma append_assoc (a b c : string) : (a ++ b) ++ c = a ++ (b ++ c).
Proof.
  induction a as [|x a IH]; simpl; [reflexivity | now rewrite IH].
Qed.

Lemma member_no_property h v k :
  has_property h v k = false -> member h v k = JUndefined.
Proof.
  destruct v; simpl; try reflexivity.
  - destruct (array_index k) as [i|].
    + unfold char_at. now intros ->.
    + now intros ->.
  - unfold has_key. now destruct (lookup k (deref h l)).
  - now intros ->.
Qed.

Lemma Get_not_nullish h v k :
  nullish v = false -> Get h v k = Normal (member h v k).
Proof. now destruct v. Qed.

Lemma truthy_not_nullish v : ToBoolean v = true -> nullish v = false.
Proof. now destruct v. Qed.

Lemma index_keys_none ps :
  (forall k, In k (map fst ps) -> is_array_index k = false) ->
  index_keys ps = [] /\ string_keys ps = map fst ps.
Proof.
  induction ps as [|[k v] r IH]; simpl; intros Hk; [now split|].
  assert (Hh : is_array_index k = false) by (apply Hk; now left).
  destruct IH as [IH1 IH2]; [intros k' Hin; apply Hk; now right|].
  unfold is_array_index in Hh |- *.
  destruct (array_index k); [discriminate|].
  split; [exact IH1 | now rewrite IH2].
Qed.

Lemma lookup_entries ps :
  NoDup (map fst ps) ->
  map (fun k => (k, match lookup k ps with Some v => v | None => JUndefined end))
      (map fst ps) = ps.
Proof.
  induction ps as [|[k v] r IH]; simpl; intros Hnd; [reflexivity|].
  inversion Hnd as [|? ? Hnotin Hnd']; subst.
  rewrite String.eqb_refl. f_equal.
  rewrite <- (IH Hnd') at 2.
  apply map_ext_in. intros k' Hin.
  destruct (String.eqb_spec k k') as [->|_]; [contradiction | reflexivity].
Qed.

(** The array indices among the keys are enumerated in ascending order. *)
Lemma insert_index_sorted n k l :
  Sorted index_le l -> Sorted index_le (insert_index n k l).
Proof.
  induction l as [|[m k'] r IH]; simpl; intros Hs.
  - repeat constructor.
  - destruct (N.leb_spec n m) as [Hle|Hgt].
    + constructor; [exact Hs | constructor; exact Hle].
    + inversion Hs as [|? ? Hr Hhd]; subst.
      constructor; [now apply IH|].
      destruct r as [|[m' k''] r']; simpl.
      * constructor. unfold index_le; simpl; lia.
      * inversion Hhd; subst.
        destruct (n <=? m')%N; constructor; unfold index_le in *; simpl in *; lia.
Qed.

Lemma index_keys_sorted ps : Sorted index_le (index_keys ps).
Proof.
  induction ps as [|[k v] r IH]; simpl; [constructor|].
  destruct (array_index k); [now apply insert_index_sorted | exact IH].
Qed.

(** Without array indices among its keys, an object is enumerated in the
    order its properties were created. *)
Lemma enumerated_insertion_order ps :
  NoDup (map fst ps) ->
  (forall k, In k (map fst ps) -> is_array_index k = false) ->
  enumerated ps = ps.
Proof.
  intros Hnd Hk. unfold enumerated, own_keys.
  destruct (index_keys_none ps Hk) as [-> ->]. simpl.
  now apply lookup_entries.
Qed.

(** *** The loop building the query string *)

Lemma fold_add_entry_throw h query keys e :
  fold_left (add_entry h query) keys (Throw e) = Throw e.
Proof. induction keys as [|k r IH]; simpl; [reflexivity | exact IH]. Qed.

(** The loop converts the values in the order of the keys and stops at the
    first conversion that throws. *)
Lemma fold_add_entry h query keys acc :
  nullish query = false ->
  fold_left (add_entry h query) keys (Normal acc)
  = match render_entries h (map (fun k => (k, member h query k)) keys) with
    | Normal es => Normal (acc ++ Spec.serialize es)
    | Throw e => Throw e
    end.
Proof.
  intros Hq. revert acc.
  induction keys as [|k r IH]; intros acc; simpl.
  - f_equal. induction acc as [|c a IHa]; simpl; [reflexivity | now rewrite <- IHa].
  - rewrite (Get_not_nullish _ _ _ Hq).
    destruct (ToString h (member h query k)) as [s|e];
      [|apply fold_add_entry_throw].
    rewrite IH.
    destruct (render_entries h (map (fun k0 => (k0, member h query k0)) r));
      [|reflexivity].
    simpl. f_equal. rewrite !append_assoc. simpl. now rewrite append_assoc.
Qed.

Lemma build_query_object h l :
  build_query h (JRef l)
  = match render_entries h (enumerated (deref h l)) with
    | Normal es => Normal ("?" ++ Spec.serialize es)
    | Throw e => Throw e
    end.
Proof.
  unfold build_query. now rewrite fold_add_entry.
Qed.

(** What the loop throws is the [TypeError] of a failed conversion. *)
Lemma render_entries_throw h ps e :
  render_entries h ps = Throw e -> e = cannot_convert.
Proof.
  induction ps as [|[k v] r IH]; simpl; [discriminate|].
  destruct (ToString h v) as [s|e'] eqn:Hv.
  - destruct (render_entries h r); [discriminate|].
    intros [= <-]. now apply IH.
  - intros [= <-]. destruct v; try discriminate; try (destruct b; discriminate).
    simpl in Hv. destruct (has_key "toString" (deref h l)); congruence.
Qed.

Lemma build_query_throw h query e :
  build_query h query = Throw e -> e = cannot_convert.
Proof.
  unfold build_query. destruct (nullish query) eqn:Hq.
  - destruct query; discriminate.
  - rewrite (fold_add_entry _ _ _ _ Hq).
    destruct (render_entries h _) eqn:Hr; [discriminate|].
    intros [= <-]. exact (render_entries_throw _ _ _ Hr).
Qed.

(** *** Outcome handling *)

(** A body with an error object that carries a message has a truthy error
    field whose [message] reads as that message. *)
Lemma error_message_member h body message :
  Spec.error_message h body = Some message ->
  nullish body = false /\
  ToBoolean (member h body "error") = true /\
  member h (member h body "error") "message" = message.
Proof.
  destruct body; simpl; try discriminate.
  destruct (lookup "error" (deref h l)) as [[]|]; try discriminate.
  simpl. now intros ->.
Qed.

(** C1 (amended): the outcomes of [callAPI] are resolved in priority order.
    A truthy transport error rejects with that very value, whatever the
    body is.  Otherwise, for a body that is neither [null] nor [undefined]:
    a truthy [error] field rejects with the value of [error.message], which
    is the message when the error object carries one; an absent or falsy
    [error] field resolves to the whole body. *)
Theorem callback_priority_order (h : Heap) (err res body : JsValue) :
  (ToBoolean err = true -> callback h err res body = Rejected err) /\
  (ToBoolean err = false ->
   forall message, Spec.error_message h body = Some message ->
   callback h err res body = Rejected message) /\
  (ToBoolean err = false -> nullish body = false ->
   ToBoolean (member h body "error") = true ->
   callback h err res body = Rejected (member h (member h body "error") "message")) /\
  (ToBoolean err = false -> nullish body = false ->
   ToBoolean (member h body "error") = false ->
   callback h err res body = Resolved body).
Proof.
  assert (Htruthy : ToBoolean err = false -> nullish body = false ->
            ToBoolean (member h body "error") = true ->
            callback h err res body
            = Rejected (member h (member h body "error") "message")).
  { intros He Hb Ht. unfold callback.
    rewrite He, (Get_not_nullish _ _ _ Hb), Ht.
    now rewrite (Get_not_nullish _ _ _ (truthy_not_nullish _ Ht)). }
  repeat split.
  - intros He. unfold callback. now rewrite He.
  - intros He message Hm.
    destruct (error_message_member _ _ _ Hm) as (Hb & Ht & <-). auto.
  - exact Htruthy.
  - intros He Hb Hf. unfold callback.
    now rewrite He, (Get_not_nullish _ _ _ Hb), Hf.
Qed.

(** C8: when the transport succeeds and the body has a truthy [error] field
    without a [message] property, the promise is rejected and the reason is
    [undefined]: the test is on the truthiness of the field. *)
Theorem callback_error_without_message (h : Heap) (err res body error : JsValue) :
  ToBoolean err = false ->
  Get h body "error" = Normal error ->
  ToBoolean error = true ->
  has_property h error "message" = false ->
  callback h err res body = Rejected JUndefined.
Proof.
  intros He Hg Ht Hm. unfold callback. rewrite He, Hg, Ht.
  rewrite (Get_not_nullish _ _ _ (truthy_not_nullish _ Ht)).
  now rewrite (member_no_property _ _ _ Hm).
Qed.

(** C9: after a transport success the handler settles the promise exactly
    when the body is neither [null] nor [undefined]; on such a body reading
    [body.error] throws a [TypeError] and the promise is neither resolved
    nor rejected. *)
Theorem callback_faults_on_null_body (h : Heap) (err res body : JsValue) :
  ToBoolean err = false ->
  (nullish body = true ->
   callback h err res body = Faulted (cannot_read body "error")) /\
  (settled (callback h err res body) = true <-> nullish body = false).
Proof.
  intros He. unfold callback. rewrite He. split.
  - now destruct body.
  - destruct (nullish body) eqn:Hb.
    + destruct body; try discriminate; simpl; split; discriminate.
    + rewrite (Get_not_nullish _ _ _ Hb).
      destruct (ToBoolean (member h body "error")) eqn:Ht.
      * now rewrite (Get_not_nullish _ _ _ (truthy_not_nullish _ Ht)).
      * now split.
Qed.

(** *** Construction *)

(** C3: without a token, or with the empty one, the constructor throws
    [Error('Token is required!')] (the specification's configuration
    error); with any other token it returns a client holding the token
    and the secret as they were passed, and the host and the version as
    they were passed or their defaults. *)
Theorem constructor_requires_token (secret api_host api_version : option string) :
  constructor None secret api_host api_version
    = Throw (JErr Error "Token is required!") /\
  constructor (Some "") secret api_host api_version
    = Throw (JErr Error "Token is required!") /\
  (forall tok, tok <> "" ->
     constructor (Some tok) secret api_host api_version
     = Normal {| token := tok; secret := secret;
                 api_host := match api_host with
                             | Some x => x | None => "graph.facebook.com" end;
                 api_version := match api_version with
                                | Some x => x | None => "v3.2" end |}) /\
  (forall tok host version, tok <> "" ->
     constructor (Some tok) secret (Some host) (Some version)
     = Normal {| token := tok; secret := secret;
                 api_host := host; api_version := version |}).
Proof.
  repeat split; intros tok; intros; destruct tok; simpl; congruence.
Qed.

(** *** Frames *)

Lemma extends_refl w : extends w w.
Proof. split; [reflexivity | exists []; now rewrite app_nil_r]. Qed.

Lemma extends_trans w1 w2 w3 : extends w1 w2 -> extends w2 w3 -> extends w1 w3.
Proof.
  intros [Ht1 [o1 Hh1]] [Ht2 [o2 Hh2]]. split; [congruence|].
  exists (o1 ++ o2)%list. now rewrite Hh2, Hh1, app_assoc.
Qed.

Lemma extends_length w w' : extends w w' -> length (heap w) <= length (heap w').
Proof. intros [_ [objs ->]]. rewrite length_app. lia. Qed.

Lemma framed_ret {A} (a : A) : framed (ret a).
Proof. intros w. apply extends_refl. Qed.

Lemma framed_bind {A B} (c : M A) (k : A -> M B) :
  framed c -> (forall a, framed (k a)) -> framed (bind c k).
Proof.
  intros Hc Hk w. unfold bind. specialize (Hc w).
  destruct (c w) as [a w1]. simpl in Hc.
  eapply extends_trans; [exact Hc | apply Hk].
Qed.

Lemma framed_get_this : framed get_this.
Proof. intros w. apply extends_refl. Qed.

Lemma framed_get_heap : framed get_heap.
Proof. intros w. apply extends_refl. Qed.

Lemma framed_alloc ps : framed (alloc ps).
Proof. intros w. split; simpl; eauto. Qed.

Lemma framed_request r : framed (request r).
Proof.
  intros w. unfold request.
  destruct (transport r (heap w) (net w)) as [[resp objs] n].
  split; simpl; eauto.
Qed.

Lemma framed_getAppSecretProof access_token app_secret :
  framed (getAppSecretProof access_token app_secret).
Proof. apply framed_ret. Qed.

Create HintDb frame.
#[local] Hint Resolve framed_ret framed_get_this framed_get_heap framed_alloc
  framed_request framed_getAppSecretProof : frame.

Ltac frame :=
  repeat first
    [ apply framed_bind; [|intros]
    | match goal with
      | |- framed (match ?x with _ => _ end) => destruct x
      | |- framed (let _ := ?x in _) => destruct x
      end
    | progress auto with frame ].

Lemma framed_default_object v : framed (default_object v).
Proof. unfold default_object. frame. Qed.

#[local] Hint Resolve framed_default_object : frame.

Lemma framed_callAPI_params method payload query :
  framed (callAPI_params method payload query).
Proof. unfold callAPI_params. frame. Qed.

Lemma framed_callAPI_request path method payload query :
  framed (callAPI_request path method payload query).
Proof. unfold callAPI_request. frame. Qed.

#[local] Hint Resolve framed_callAPI_params framed_callAPI_request : frame.

Lemma framed_callAPI_body path method payload query :
  framed (callAPI_body path method payload query).
Proof. unfold callAPI_body. frame. Qed.

#[local] Hint Resolve framed_callAPI_body : frame.

Lemma framed_callAPI path method payload query :
  framed (callAPI path method payload query).
Proof. unfold callAPI. frame. Qed.

#[local] Hint Resolve framed_callAPI : frame.

Lemma framed_get path query : framed (get path query).
Proof. unfold get. frame. Qed.

Lemma framed_post path body query : framed (post path body query).
Proof. unfold post. frame. Qed.

Lemma extends_perform op w : extends w (perform op w).
Proof.
  destruct op; unfold perform.
  - apply framed_callAPI.
  - apply framed_get.
  - apply framed_post.
  - apply framed_getAppSecretProof.
Qed.

Lemma extends_run ops w : extends w (run ops w).
Proof.
  revert w. induction ops as [|op r IH]; intros w; simpl.
  - apply extends_refl.
  - eapply extends_trans; [apply extends_perform | apply IH].
Qed.

(** *** The request *)

Lemma deref_fresh (h : Heap) : deref (h ++ [[]])%list (length h) = [].
Proof. unfold deref. now rewrite nth_middle. Qed.

(** Building the request leaves the state as it was; the request is the
    template of line 64 around the query string, when the loop gives
    one. *)
Lemma callAPI_request_any path method payload query w :
  callAPI_request path method payload query w
  = (match build_query (heap w) query with
     | Normal queryString =>
         Normal {| method := method; json := true; body := payload;
                   uri := request_uri (this w) path queryString
                            (hmac_hex "sha256" (or_empty (secret (this w)))
                                      (token (this w))) |}
     | Throw e => Throw e
     end, w).
Proof.
  unfold callAPI_request, bind, get_this, get_heap, getAppSecretProof, ret.
  now destruct (build_query (heap w) query).
Qed.

(** For a query that is an object, the URL carries the entries as they are
    enumerated, when their values convert to strings. *)
Lemma callAPI_request_object path method payload l w :
  callAPI_request path method payload (JRef l) w
  = (match render_entries (heap w) (enumerated (deref (heap w) l)) with
     | Normal es =>
         Normal {| method := method; json := true; body := payload;
                   uri := Spec.url (this w) path es
                            (hmac_hex "sha256" (or_empty (secret (this w)))
                                      (token (this w))) |}
     | Throw e => Throw e
     end, w).
Proof.
  rewrite callAPI_request_any, build_query_object.
  now destruct (render_entries (heap w) (enumerated (deref (heap w) l))).
Qed.

(** A call whose request cannot be built rejects with what was thrown; any
    other ends as the callback says of the transport's answer. *)
Lemma callAPI_body_callback path method payload query w :
  callAPI_body path method payload query w
  = match fst (callAPI_request path method payload query w) with
    | Throw e => (Rejected e, w)
    | Normal options =>
        let '(resp, objs, n) := transport options (heap w) (net w) in
        (callback (heap w ++ objs)%list (cb_err resp) (cb_res resp) (cb_body resp),
         {| this := this w; heap := (heap w ++ objs)%list; net := n |})
    end.
Proof.
  unfold callAPI_body, bind. rewrite callAPI_request_any. simpl fst.
  destruct (build_query (heap w) query) as [qs|e]; [|reflexivity].
  unfold request, get_heap, ret.
  now destruct (transport _ (heap w) (net w)) as [[resp objs] n].
Qed.

(** C2 (amended): for a query object whose values convert to strings, the
    URL of the request is [https://], the host, [/], the version, the
    path, [?], the entries of the query as [key=value&] with the value as
    the template literal converts it and no encoding (a string value goes
    in as it is), then
    [access_token=<token>&appsecret_proof=<proof>].  The entries come in
    the order [for ... in] enumerates them: keys that are array indices
    first, in ascending numeric order, then the other keys in insertion
    order.  For a query none of whose keys is an array index this is
    insertion order; so it is for [{a: 1, b: 2}]. *)
Theorem request_url_enumeration_order
  (path method : string) (payload : JsValue) (l : Loc) (w : World) :
  let ps := deref (heap w) l in
  let proof := hmac_hex "sha256" (or_empty (secret (this w))) (token (this w)) in
  let options u :=
    Normal {| method := method; json := true; body := payload; uri := u |} in
  (forall es, render_entries (heap w) (enumerated ps) = Normal es ->
   fst (callAPI_request path method payload (JRef l) w)
     = options (Spec.url (this w) path es proof)) /\
  (forall k s, render_entries (heap w) [(k, JStr s)] = Normal [(k, s)]) /\
  map fst (enumerated ps) = (map snd (index_keys ps) ++ string_keys ps)%list /\
  Sorted index_le (index_keys ps) /\
  (NoDup (map fst ps) ->
   (forall k, In k (map fst ps) -> is_array_index k = false) ->
   forall es, render_entries (heap w) ps = Normal es ->
   fst (callAPI_request path method payload (JRef l) w)
     = options (Spec.url (this w) path es proof)) /\
  (ps = [("a", JNum (num 1)); ("b", JNum (num 2))] ->
   fst (callAPI_request path method payload (JRef l) w)
     = options ("https://" ++ api_host (this w) ++ "/" ++ api_version (this w)
                  ++ path ++ "?a=1&b=2&access_token=" ++ token (this w)
                  ++ "&appsecret_proof=" ++ proof)).
Proof.
  intros ps proof options. subst ps proof options.
  rewrite callAPI_request_object. simpl fst.
  split; [now intros es ->|]. split; [reflexivity|]. split.
  { unfold enumerated. rewrite map_map. simpl. apply map_id. }
  split; [apply index_keys_sorted|]. split.
  - intros Hnd Hk es Hes.
    now rewrite (enumerated_insertion_order _ Hnd Hk), Hes.
  - intros ->. reflexivity.
Qed.

(** C10: for an empty query object the query string is the single
    character [?], and the URL has
    [access_token=<token>&appsecret_proof=<proof>] right after it; an
    omitted query is such an object. *)
Theorem empty_query_url
  (path method : string) (payload : JsValue) (l : Loc) (w : World) :
  deref (heap w) l = [] ->
  let proof := hmac_hex "sha256" (or_empty (secret (this w))) (token (this w)) in
  let url := "https://" ++ api_host (this w) ++ "/" ++ api_version (this w)
               ++ path ++ "?access_token=" ++ token (this w)
               ++ "&appsecret_proof=" ++ proof in
  build_query (heap w) (JRef l) = Normal "?" /\
  fst (callAPI_request path method payload (JRef l) w)
    = Normal {| method := method; json := true; body := payload; uri := url |} /\
  (let '(m, p, q, w1) := callAPI_params (Some method) payload JUndefined w in
   build_query (heap w1) q = Normal "?" /\
   fst (callAPI_request path m p q w1)
     = Normal {| method := method; json := true; body := p; uri := url |}).
Proof.
  intros Hl proof url. subst proof url. split; [|split].
  - rewrite build_query_object, Hl. reflexivity.
  - rewrite callAPI_request_object, Hl. reflexivity.
  - unfold callAPI_params, bind, ret.
    destruct (default_object payload w) as [p w0] eqn:Hp.
    assert (Ht : this w0 = this w).
    { pose proof (framed_default_object payload w) as [H _].
      now rewrite Hp in H. }
    unfold default_object, bind, alloc, ret. simpl.
    rewrite build_query_object, callAPI_request_object. simpl.
    rewrite deref_fresh, Ht. split; reflexivity.
Qed.

(** *** Signing *)

(** C4: [getAppSecretProof] is deterministic and pure.  Its result depends
    on the token and the secret only, not on the state it is evaluated in,
    which it leaves as it was; and an absent secret gives the proof the
    empty secret gives. *)
Theorem getAppSecretProof_deterministic
  (access_token : string) (app_secret : option string) (w1 w2 : World) :
  fst (getAppSecretProof access_token app_secret w1)
    = fst (getAppSecretProof access_token app_secret w2) /\
  snd (getAppSecretProof access_token app_secret w1) = w1 /\
  fst (getAppSecretProof access_token None w1)
    = fst (getAppSecretProof access_token (Some "") w1).
Proof. repeat split. Qed.

(** *** The wrappers *)

(** C5: [get(path, query)] is [callAPI(path, 'GET', {}, query)] and
    [post(path, body, query)] is [callAPI(path, 'POST', body, query)]: same
    outcome and same state afterwards, for all arguments and states. *)
Theorem get_post_delegate (path : string) (body query : JsValue) (w : World) :
  get path query w
    = (let (l, w') := alloc [] w in callAPI path (Some "GET") (JRef l) query w') /\
  post path body query w = callAPI path (Some "POST") body query w.
Proof. split; reflexivity. Qed.

(** *** Defaults *)

(** What [callAPI] binds its parameters to, and the state after. *)
Lemma callAPI_params_eq meth payload query w :
  callAPI_params meth payload query w
  = ((match meth with Some x => x | None => "POST" end,
      match payload with
      | JUndefined => JRef (length (heap w))
      | _ => payload
      end,
      match query with
      | JUndefined =>
          JRef (length (heap w)
                + match payload with JUndefined => 1 | _ => 0 end)
      | _ => query
      end),
     {| this := this w;
        heap := (heap w
                 ++ match payload with JUndefined => [[]] | _ => [] end
                 ++ match query with JUndefined => [[]] | _ => [] end)%list;
        net := net w |}).
Proof.
  unfold callAPI_params, default_object, bind, alloc, ret.
  destruct w as [t h n].
  destruct payload, query; simpl;
    rewrite ?app_nil_r, ?length_app, <- ?app_assoc, ?Nat.add_0_r; reflexivity.
Qed.

(** C6: an omitted host is [graph.facebook.com] and an omitted version is
    [v3.2], each on its own; in [callAPI] an omitted method is ['POST'],
    and an omitted payload and an omitted query are empty objects, each
    whatever the other arguments are.  Such an object is allocated by the
    call: it is at a location the heap did not have before, the two of one
    call are distinct, and the containers of a later call are not those of
    an earlier one. *)
Theorem default_parameters :
  (forall c s secret host version,
     constructor (Some (String c s)) secret host version
     = Normal {| token := String c s; secret := secret;
                 api_host := match host with
                             | Some x => x | None => "graph.facebook.com" end;
                 api_version := match version with
                                | Some x => x | None => "v3.2" end |}) /\
  (forall meth payload query w,
     let '(m, p, q, w') := callAPI_params meth payload query w in
     m = match meth with Some x => x | None => "POST" end /\
     (payload <> JUndefined -> p = payload) /\
     (query <> JUndefined -> q = query) /\
     (payload = JUndefined ->
      exists lp, p = JRef lp /\ ~ allocated (heap w) lp /\
                 allocated (heap w') lp /\ deref (heap w') lp = []) /\
     (query = JUndefined ->
      exists lq, q = JRef lq /\ ~ allocated (heap w) lq /\
                 allocated (heap w') lq /\ deref (heap w') lq = []) /\
     (payload = JUndefined -> query = JUndefined -> p <> q) /\
     extends w w') /\
  (forall w path ops meth1 payload1 query1 meth2 payload2 query2,
     let '(m1, p1, q1, w1) := callAPI_params meth1 payload1 query1 w in
     let w2 := run ops (snd (callAPI_body path m1 p1 q1 w1)) in
     let '(m2, p2, q2, w3) := callAPI_params meth2 payload2 query2 w2 in
     (payload2 = JUndefined -> payload1 = JUndefined -> p2 <> p1) /\
     (payload2 = JUndefined -> query1 = JUndefined -> p2 <> q1) /\
     (query2 = JUndefined -> payload1 = JUndefined -> q2 <> p1) /\
     (query2 = JUndefined -> query1 = JUndefined -> q2 <> q1)).
Proof.
  split; [reflexivity|]. split.
  - intros meth payload query w. rewrite callAPI_params_eq.
    split; [reflexivity|].
    split; [intros Hp; now destruct payload|].
    split; [intros Hq; now destruct query|].
    split; [|split; [|split]].
    + intros ->. exists (length (heap w)).
      unfold allocated, deref. simpl. rewrite length_app. simpl.
      repeat split; try lia. now rewrite nth_middle.
    + intros ->. eexists. split; [reflexivity|].
      unfold allocated, deref. simpl. rewrite !length_app.
      destruct payload; simpl; rewrite ?Nat.add_0_r;
        repeat split; try lia;
        try (now rewrite nth_middle).
      rewrite app_nth2 by lia.
      now replace (length (heap w) + 1 - length (heap w)) with 1 by lia.
    + intros -> -> [= H]. lia.
    + split; simpl; eauto.
  - intros w path ops meth1 payload1 query1 meth2 payload2 query2.
    rewrite callAPI_params_eq. cbv beta iota zeta.
    set (p1 := match payload1 with JUndefined => _ | _ => _ end).
    set (q1 := match query1 with JUndefined => _ | _ => _ end).
    set (w1 := {| this := this w; heap := _; net := net w |}).
    set (w2 := run ops (snd (callAPI_body path _ p1 q1 w1))).
    rewrite callAPI_params_eq.
    assert (Hlen : length (heap w1) <= length (heap w2)).
    { pose proof (extends_length _ _ (framed_callAPI_body path
        (match meth1 with Some x => x | None => "POST" end) p1 q1 w1)) as H1.
      pose proof (extends_length _ _ (extends_run ops
        (snd (callAPI_body path
                (match meth1 with Some x => x | None => "POST" end)
                p1 q1 w1)))) as H2.
      fold w2 in H2. lia. }
    unfold w1 in Hlen at 1. simpl in Hlen. rewrite !length_app in Hlen.
    subst p1 q1.
    repeat split; intros -> ->; simpl in Hlen |- *; intros [= H];
      try destruct payload1; try destruct payload2; simpl in *; lia.
Qed.

(** *** The configuration *)

(** C7: the four fields of the client are the same after any sequence of
    calls of [callAPI], [get], [post] and [getAppSecretProof] as before
    it. *)
Theorem configuration_immutable (ops : list Op) (w : World) :
  token (this (run ops w)) = token (this w) /\
  secret (this (run ops w)) = secret (this w) /\
  api_host (this (run ops w)) = api_host (this w) /\
  api_version (this (run ops w)) = api_version (this w).
Proof.
  destruct (extends_run ops w) as [-> _]. repeat split.
Qed.

(* ================================================================== *)
(** ** Further properties of the code *)
(* ================================================================== *)

(** *** What the outcomes tell the caller *)

(** X1: a promise that resolves, resolves to the decoded body itself, and
    only after a falsy [err], for a body that is neither [null] nor
    [undefined] and whose [error] field is absent or falsy. *)
Theorem resolved_only_with_body (h : Heap) (err res body v : JsValue) :
  callback h err res body = Resolved v ->
  v = body /\ ToBoolean err = false /\ nullish body = false /\
  ToBoolean (member h body "error") = false.
Proof.
  unfold callback. destruct (ToBoolean err); [discriminate|].
  destruct (nullish body) eqn:Hb.
  - destruct body; discriminate.
  - rewrite (Get_not_nullish _ _ _ Hb).
    destruct (ToBoolean (member h body "error")) eqn:Ht.
    + now rewrite (Get_not_nullish _ _ _ (truthy_not_nullish _ Ht)).
    + intros [= <-]. auto.
Qed.

(** What the callback rejects with. *)
Lemma callback_rejected_origin (h : Heap) (err res body reason : JsValue) :
  callback h err res body = Rejected reason ->
  (ToBoolean err = true /\ reason = err) \/
  (ToBoolean err = false /\ nullish body = false /\
   ToBoolean (member h body "error") = true /\
   reason = member h (member h body "error") "message").
Proof.
  unfold callback. destruct (ToBoolean err).
  - intros [= <-]. now left.
  - intros H. right. destruct (nullish body) eqn:Hb.
    + destruct body; discriminate.
    + rewrite (Get_not_nullish _ _ _ Hb) in H.
      destruct (ToBoolean (member h body "error")) eqn:Ht; [|discriminate].
      rewrite (Get_not_nullish _ _ _ (truthy_not_nullish _ Ht)) in H.
      injection H as <-. auto.
Qed.

(** X2: the reason the promise of [callAPI] is rejected with is one of
    three.  Either the loop of lines 55-57 threw it, the [TypeError] of a
    query value that does not convert to a string, and no request was
    made; or it is the transport's truthy [err]; or, after a falsy [err],
    it is what [body.error.message] reads for a truthy [body.error]. *)
Theorem rejected_reason_origin
  (path : string) (meth : option string) (payload query : JsValue)
  (w : World) (reason : JsValue) :
  fst (callAPI path meth payload query w) = Rejected reason ->
  let '(m, p, q, w1) := callAPI_params meth payload query w in
  (build_query (heap w1) q = Throw reason /\ reason = cannot_convert) \/
  (exists options,
     fst (callAPI_request path m p q w1) = Normal options /\
     let '(resp, objs, n) := transport options (heap w1) (net w1) in
     let h := (heap w1 ++ objs)%list in
     (ToBoolean (cb_err resp) = true /\ reason = cb_err resp) \/
     (ToBoolean (cb_err resp) = false /\ nullish (cb_body resp) = false /\
      ToBoolean (member h (cb_body resp) "error") = true /\
      reason = member h (member h (cb_body resp) "error") "message")).
Proof.
  unfold callAPI, bind.
  destruct (callAPI_params meth payload query w) as [[[m p] q] w1].
  rewrite callAPI_body_callback, callAPI_request_any. simpl fst.
  destruct (build_query (heap w1) q) as [qs|e] eqn:Hb.
  - intros H. right. eexists. split; [reflexivity|].
    destruct (transport _ (heap w1) (net w1)) as [[resp objs] n].
    simpl in H |- *. now apply callback_rejected_origin in H.
  - simpl. intros [= <-]. left. split; [reflexivity|].
    exact (build_query_throw _ _ _ Hb).
Qed.

(** X3: after a falsy [err] a body that is a string, a number or a boolean
    resolves the promise to that body: such a value has no [error]
    property. *)
Theorem primitive_body_resolves (h : Heap) (err res : JsValue) :
  ToBoolean err = false ->
  (forall s, callback h err res (JStr s) = Resolved (JStr s)) /\
  (forall n, callback h err res (JNum n) = Resolved (JNum n)) /\
  (forall b, callback h err res (JBool b) = Resolved (JBool b)).
Proof.
  intros He. unfold callback. rewrite He. repeat split.
Qed.

(** *** Arguments *)

(** X4: an argument other than [undefined] is bound as it is, [null]
    included, and nothing is allocated for it. *)
Theorem given_arguments_pass_through
  (method : string) (payload query : JsValue) (w : World) :
  payload <> JUndefined -> query <> JUndefined ->
  callAPI_params (Some method) payload query w = ((method, payload, query), w).
Proof.
  intros Hp Hq. unfold callAPI_params, bind, ret.
  destruct payload; try contradiction; destruct query; try contradiction;
    reflexivity.
Qed.

(** X5: a query that is [null], a number, a boolean or an error object has
    no entries: the query string is [?] and the URL is that of an empty
    query.  ([null] is not replaced by the default.) *)
Theorem non_object_query_has_no_entries
  (path method : string) (payload query : JsValue) (w : World) :
  match query with
  | JNull | JNum _ | JBool _ | JErr _ _ => True
  | _ => False
  end ->
  build_query (heap w) query = Normal "?" /\
  fst (callAPI_request path method payload query w)
    = Normal {| method := method; json := true; body := payload;
                uri := "https://" ++ api_host (this w) ++ "/"
                         ++ api_version (this w) ++ path
                         ++ "?access_token=" ++ token (this w)
                         ++ "&appsecret_proof="
                         ++ hmac_hex "sha256" (or_empty (secret (this w)))
                                     (token (this w)) |}.
Proof.
  intros Hq.
  assert (Hb : build_query (heap w) query = Normal "?")
    by (destruct query; try contradiction; reflexivity).
  split; [exact Hb|].
  rewrite callAPI_request_any, Hb. reflexivity.
Qed.

(** *** The query string *)

Lemma insert_index_permutation n k l :
  Permutation (insert_index n k l) ((n, k) :: l).
Proof.
  induction l as [|[m k'] r IH]; simpl; [apply Permutation_refl|].
  destruct (n <=? m)%N; [apply Permutation_refl|].
  eapply perm_trans; [apply perm_skip, IH | apply perm_swap].
Qed.

Lemma own_keys_permutation ps : Permutation (own_keys ps) (map fst ps).
Proof.
  unfold own_keys.
  induction ps as [|[k v] r IH]; simpl; [apply Permutation_refl|].
  unfold is_array_index. destruct (array_index k) as [n|].
  - eapply perm_trans;
      [apply Permutation_app_tail, Permutation_map, insert_index_permutation|].
    simpl. now apply perm_skip.
  - eapply perm_trans; [apply Permutation_sym, Permutation_middle|].
    now apply perm_skip.
Qed.

(** X6: for a query object with distinct keys, what the loop goes through
    is a rearrangement of the object's entries: every entry is taken once,
    none is dropped and none is made up, array indices or not.  The query
    string is these entries serialised, unless the conversion of one of
    their values throws. *)
Theorem query_entries_permuted (h : Heap) (l : Loc) :
  NoDup (map fst (deref h l)) ->
  exists entries,
    Permutation entries (deref h l) /\
    build_query h (JRef l)
    = match render_entries h entries with
      | Normal es => Normal ("?" ++ Spec.serialize es)
      | Throw e => Throw e
      end.
Proof.
  intros Hnd. exists (enumerated (deref h l)).
  split; [|apply build_query_object].
  unfold enumerated.
  rewrite <- (lookup_entries _ Hnd) at 2.
  apply Permutation_map, own_keys_permutation.
Qed.

(** X7: values are copied into the URL as they are.  A string value that
    contains [&k2=v2] yields the very URL of a query with the separate
    entry [k2: v2]: the receiver cannot tell the two apart. *)
Theorem query_values_not_escaped
  (path method : string) (payload : JsValue) (l l' : Loc) (w w' : World)
  (k v k2 v2 : string) :
  this w = this w' ->
  deref (heap w) l = [(k, JStr (v ++ "&" ++ k2 ++ "=" ++ v2))] ->
  deref (heap w') l' = [(k, JStr v); (k2, JStr v2)] ->
  is_array_index k = false -> is_array_index k2 = false -> k <> k2 ->
  fst (callAPI_request path method payload (JRef l) w)
    = fst (callAPI_request path method payload (JRef l') w').
Proof.
  intros Ht Hl Hl' Hk Hk2 Hne.
  rewrite !callAPI_request_object, Hl, Hl', Ht. simpl fst.
  rewrite !enumerated_insertion_order.
  - unfold Spec.url. simpl. do 3 f_equal.
    rewrite !append_assoc. simpl. rewrite !append_assoc. simpl.
    now rewrite !append_assoc.
  - simpl. repeat constructor; simpl; intuition.
  - simpl. intros x [<-|[<-|[]]]; assumption.
  - simpl. repeat constructor; simpl; intuition.
  - simpl. intros x [<-|[]]; assumption.
Qed.

(** *** The client over its life *)

Lemma constructor_normal tok sec host ver api :
  constructor tok sec host ver = Normal api ->
  tok = Some (token api) /\ token api <> "" /\ secret api = sec.
Proof.
  unfold constructor. destruct tok as [[|c t]|]; try discriminate.
  intros [= <-]. simpl. repeat split. discriminate.
Qed.

(** X8: a client the constructor returned has a non-empty token, the one
    that was passed, and still has it after any sequence of calls. *)
Theorem constructed_token_nonempty
  (tok sec host ver : option string) (api : FacebookAPI)
  (ops : list Op) (w : World) :
  constructor tok sec host ver = Normal api ->
  this w = api ->
  token (this (run ops w)) <> "" /\ tok = Some (token (this (run ops w))).
Proof.
  intros Hc Hw. destruct (constructor_normal _ _ _ _ _ Hc) as (Ht & Hne & _).
  destruct (extends_run ops w) as [-> _]. rewrite Hw. now split.
Qed.

(** X9: whatever calls came before and whatever the path, the method, the
    payload and the query are, a request that is built has as URL the
    host, version, path and query string followed by one and the same
    signature: the token and the proof of the client as it was at the
    start. *)
Theorem signature_suffix_stable
  (ops : list Op) (path method : string) (payload query : JsValue) (w : World)
  (queryString : string) :
  build_query (heap (run ops w)) query = Normal queryString ->
  fst (callAPI_request path method payload query (run ops w))
  = Normal {| method := method; json := true; body := payload;
              uri := ("https://" ++ api_host (this w) ++ "/"
                        ++ api_version (this w) ++ path ++ queryString)
                     ++ ("access_token=" ++ token (this w)
                           ++ "&appsecret_proof="
                           ++ hmac_hex "sha256" (or_empty (secret (this w)))
                                       (token (this w))) |}.
Proof.
  intros Hqs. rewrite callAPI_request_any, Hqs. simpl fst.
  destruct (extends_run ops w) as [-> _]. do 2 f_equal.
  unfold request_uri. repeat (rewrite ?append_assoc; simpl). reflexivity.
Qed.

(** X10: no call writes to an object: after any sequence of calls every
    object that existed, the payloads and queries passed in among them,
    has the properties it had (the transport only allocating what it
    decodes). *)
Theorem existing_objects_untouched (ops : list Op) (w : World) (l : Loc) :
  allocated (heap w) l ->
  deref (heap (run ops w)) l = deref (heap w) l /\
  allocated (heap (run ops w)) l.
Proof.
  unfold allocated, deref. intros Hl.
  destruct (extends_run ops w) as [_ [objs ->]].
  rewrite app_nth1 by exact Hl. rewrite length_app. split; [reflexivity | lia].
Qed.

(** *** One call, one request *)

(** X11: a call of [callAPI] binds its parameters and then goes one of two
    ways.  If a query value does not convert to a string, the loop throws
    the [TypeError], the promise is rejected with it, and the transport is
    not called: the network is as it was.  Otherwise the request is built
    ([json: true], the bound method and payload), the transport is called
    once with it, and the call ends as the callback says of the answer. *)
Theorem callAPI_single_transport
  (path : string) (meth : option string) (payload query : JsValue) (w : World) :
  exists m p q w1,
    callAPI_params meth payload query w = ((m, p, q), w1) /\
    net w1 = net w /\ this w1 = this w /\
    match build_query (heap w1) q with
    | Throw e =>
        e = cannot_convert /\
        callAPI path meth payload query w = (Rejected e, w1)
    | Normal queryString =>
        exists options,
          callAPI_request path m p q w1 = (Normal options, w1) /\
          method options = m /\ body options = p /\ json options = true /\
          uri options
          = request_uri (this w) path queryString
              (hmac_hex "sha256" (or_empty (secret (this w))) (token (this w))) /\
          callAPI path meth payload query w
          = (let '(resp, objs, n) := transport options (heap w1) (net w) in
             (callback (heap w1 ++ objs)%list
                       (cb_err resp) (cb_res resp) (cb_body resp),
              {| this := this w; heap := (heap w1 ++ objs)%list; net := n |}))
    end.
Proof.
  assert (Hw : net (snd (callAPI_params meth payload query w)) = net w /\
               this (snd (callAPI_params meth payload query w)) = this w)
    by (rewrite callAPI_params_eq; split; reflexivity).
  unfold callAPI, bind.
  destruct (callAPI_params meth payload query w) as [[[m p] q] w1].
  simpl in Hw. destruct Hw as [Hn Ht].
  exists m, p, q, w1. split; [reflexivity|].
  split; [exact Hn|]. split; [exact Ht|].
  rewrite callAPI_body_callback, callAPI_request_any. simpl fst.
  destruct (build_query (heap w1) q) as [qs|e] eqn:Hb.
  - eexists. rewrite Hn, Ht. repeat split.
  - split; [exact (build_query_throw _ _ _ Hb) | reflexivity].
Qed.

Lemma callAPI_request_fields path m p q w options :
  fst (callAPI_request path m p q w) = Normal options ->
  method options = m /\ body options = p /\ json options = true.
Proof.
  rewrite callAPI_request_any. simpl.
  destruct (build_query (heap w) q); [|discriminate].
  intros [= <-]. now repeat split.
Qed.

Lemma default_object_world v w :
  this (snd (default_object v w)) = this w /\
  net (snd (default_object v w)) = net w /\
  (v <> JUndefined -> default_object v w = (v, w)) /\
  (v = JUndefined ->
   default_object v w
   = (JRef (length (heap w)),
      {| this := this w; heap := (heap w ++ [[]])%list; net := net w |})).
Proof.
  unfold default_object, bind, alloc, ret.
  destruct v; simpl; repeat split; congruence.
Qed.

(** [callAPI] with a method given, step by step. *)
Lemma callAPI_steps path m payload query w :
  callAPI path (Some m) payload query w
  = (let (p, w0) := default_object payload w in
     let (q, w1) := default_object query w0 in
     callAPI_body path m p q w1).
Proof.
  unfold callAPI, callAPI_params, bind, ret.
  destruct (default_object payload w) as [p w0].
  now destruct (default_object query w0) as [q w1].
Qed.

(** X12: [get] makes an empty object of its own, new to the heap, for the
    body; a query that is not [undefined] goes on as it is.  If a value of
    the query does not convert to a string the promise is rejected with what
    the loop threw; otherwise the request has the method [GET] and that
    object as body, and the outcome is the callback's of the transport's
    answer to it. *)
Theorem get_sends_empty_body (path : string) (query : JsValue) (w : World) :
  exists q w1,
    ~ allocated (heap w) (length (heap w)) /\
    deref (heap w1) (length (heap w)) = [] /\
    (query <> JUndefined -> q = query) /\
    match build_query (heap w1) q with
    | Throw e => get path query w = (Rejected e, w1)
    | Normal queryString =>
        exists options,
          callAPI_request path "GET" (JRef (length (heap w))) q w1
            = (Normal options, w1) /\
          method options = "GET" /\ json options = true /\
          body options = JRef (length (heap w)) /\
          get path query w
          = (let '(resp, objs, n) := transport options (heap w1) (net w) in
             (callback (heap w1 ++ objs)%list
                       (cb_err resp) (cb_res resp) (cb_body resp),
              {| this := this w; heap := (heap w1 ++ objs)%list; net := n |}))
    end.
Proof.
  set (w0 := {| this := this w; heap := (heap w ++ [[]])%list; net := net w |}).
  change (get path query w)
    with (callAPI path (Some "GET") (JRef (length (heap w))) query w0).
  rewrite callAPI_steps. cbn [default_object ret].
  destruct (default_object_world query w0) as (Ht & Hn & Hgiven & Hdef).
  destruct (default_object query w0) as [q w1]. simpl in Ht, Hn.
  exists q, w1.
  split; [unfold allocated; lia|].
  split; [|split].
  - destruct query;
      try (specialize (Hgiven ltac:(discriminate)); injection Hgiven as -> ->;
           apply deref_fresh).
    specialize (Hdef eq_refl). injection Hdef as -> ->.
    unfold deref, w0. simpl. rewrite <- app_assoc. simpl. now rewrite nth_middle.
  - intros Hne. specialize (Hgiven Hne). now injection Hgiven.
  - rewrite callAPI_body_callback, callAPI_request_any. simpl fst.
    destruct (build_query (heap w1) q) as [qs|e]; [|reflexivity].
    eexists. rewrite Ht, Hn. repeat split.
Qed.

(** X13: [post] passes on the body it was given; for a body that is
    [undefined] the default of [callAPI] applies and the body is an empty
    object new to the heap.  If a value of the query does not convert to a
    string the promise is rejected with what the loop threw; otherwise the
    request has the method [POST] and that body, and the outcome is the
    callback's of the transport's answer to it. *)
Theorem post_sends_body (path : string) (payload query : JsValue) (w : World) :
  exists p q w1,
    (payload <> JUndefined -> p = payload) /\
    (payload = JUndefined ->
     p = JRef (length (heap w)) /\ ~ allocated (heap w) (length (heap w)) /\
     deref (heap w1) (length (heap w)) = []) /\
    (query <> JUndefined -> q = query) /\
    match build_query (heap w1) q with
    | Throw e => post path payload query w = (Rejected e, w1)
    | Normal queryString =>
        exists options,
          callAPI_request path "POST" p q w1 = (Normal options, w1) /\
          method options = "POST" /\ json options = true /\
          body options = p /\
          post path payload query w
          = (let '(resp, objs, n) := transport options (heap w1) (net w) in
             (callback (heap w1 ++ objs)%list
                       (cb_err resp) (cb_res resp) (cb_body resp),
              {| this := this w; heap := (heap w1 ++ objs)%list; net := n |}))
    end.
Proof.
  change (post path payload query w)
    with (callAPI path (Some "POST") payload query w).
  rewrite callAPI_steps.
  destruct (default_object_world payload w) as (Ht0 & Hn0 & Hgiven0 & Hdef0).
  destruct (default_object payload w) as [p w0]. simpl in Ht0, Hn0.
  destruct (default_object_world query w0) as (Ht & Hn & Hgiven & Hdef).
  destruct (default_object query w0) as [q w1]. simpl in Ht, Hn.
  exists p, q, w1.
  split; [|split; [|split]].
  - intros Hne. specialize (Hgiven0 Hne). now injection Hgiven0.
  - intros Hu. specialize (Hdef0 Hu). injection Hdef0 as -> ->.
    split; [reflexivity|]. split; [unfold allocated; lia|].
    destruct query;
      try (specialize (Hgiven ltac:(discriminate)); injection Hgiven as -> ->;
           apply deref_fresh).
    specialize (Hdef eq_refl). injection Hdef as -> ->.
    unfold deref. simpl. rewrite <- app_assoc. simpl. now rewrite nth_middle.
  - intros Hne. specialize (Hgiven Hne). now injection Hgiven.
  - rewrite callAPI_body_callback, callAPI_request_any. simpl fst.
    destruct (build_query (heap w1) q) as [qs|e]; [|reflexivity].
    eexists. rewrite Ht, Hn, Ht0, Hn0. repeat split.
Qed.

(** *** From construction to the wire *)

(** X14: a client constructed with a token and nothing else but, perhaps,
    a secret, asks [graph.facebook.com/v3.2]; with an empty query the URL
    is the path between that and the token with its proof, the proof
    keyed by the secret, or by the empty string when there is none. *)
Theorem constructed_client_url
  (tok : string) (sec : option string) (api : FacebookAPI)
  (path method : string) (payload : JsValue) (l : Loc) (w : World) :
  constructor (Some tok) sec None None = Normal api ->
  this w = api ->
  deref (heap w) l = [] ->
  fst (callAPI_request path method payload (JRef l) w)
    = Normal {| method := method; json := true; body := payload;
                uri := "https://graph.facebook.com/v3.2" ++ path
                         ++ "?access_token=" ++ tok ++ "&appsecret_proof="
                         ++ hmac_hex "sha256"
                              (match sec with Some s => s | None => "" end)
                              tok |}.
Proof.
  intros Hc Hw Hl. rewrite callAPI_request_object, Hl, Hw. simpl fst.
  unfold constructor in Hc. destruct tok as [|c t]; [discriminate|].
  injection Hc as <-. unfold Spec.url. simpl.
  do 3 f_equal. unfold or_empty.
  destruct sec as [[|]|]; reflexivity.
Qed.

(** *** The shape of the query string *)

Lemma serialize_shape ps :
  Spec.serialize ps = "" \/ exists r, Spec.serialize ps = r ++ "&".
Proof.
  induction ps as [|[k v] r IH]; simpl; [now left|]. right.
  destruct IH as [-> | [r0 ->]].
  - exists (k ++ "=" ++ v).
    repeat (rewrite ?append_assoc; simpl). reflexivity.
  - exists (k ++ "=" ++ v ++ "&" ++ r0).
    repeat (rewrite ?append_assoc; simpl). reflexivity.
Qed.

(** X15: whatever the query is, a query string the loop ends with starts
    with [?] and is either just that or ends with [&]: in the URL
    [access_token] always comes right after a separator. *)
Theorem query_string_shape (h : Heap) (query : JsValue) (queryString : string) :
  build_query h query = Normal queryString ->
  exists rest,
    queryString = "?" ++ rest /\
    (rest = "" \/ exists r, rest = r ++ "&").
Proof.
  unfold build_query. destruct (nullish query) eqn:Hq.
  - destruct query; try discriminate; intros [= <-]; exists ""; now split; [|left].
  - rewrite (fold_add_entry _ _ _ _ Hq).
    destruct (render_entries h _) as [es|e]; [|discriminate].
    intros [= <-]. eexists. split; [reflexivity|]. apply serialize_shape.
Qed.

End Client.

(* ================================================================== *)
(** ** The theorems at work *)
(* ================================================================== *)

(** C1, at a refused connection, at the body
    [{ error: { message: 'Invalid token' } }] and at the body
    [{ id: '123' }]. *)
Lemma callback_priority_order_witness :
  callback [] (JErr Error "connect ECONNREFUSED") JUndefined JUndefined
    = Rejected (JErr Error "connect ECONNREFUSED") /\
  callback [[("error", JRef 1)]; [("message", JStr "Invalid token")]]
           JNull JNull (JRef 0)
    = Rejected (JStr "Invalid token") /\
  callback [[("error", JRef 1)]; [("message", JStr "Invalid token"); ("code", JNum (num 190))]]
           JNull JNull (JRef 0)
    = Rejected (JStr "Invalid token") /\
  callback [[("id", JStr "123")]] JNull JNull (JRef 0) = Resolved (JRef 0).
Proof.
  split; [|split; [|split]].
  - exact (proj1 (callback_priority_order [] (JErr Error "connect ECONNREFUSED")
                    JUndefined JUndefined) eq_refl).
  - exact (proj1 (proj2 (callback_priority_order
                    [[("error", JRef 1)]; [("message", JStr "Invalid token")]]
                    JNull JNull (JRef 0))) eq_refl (JStr "Invalid token") eq_refl).
  - exact (proj1 (proj2 (proj2 (callback_priority_order
                    [[("error", JRef 1)];
                     [("message", JStr "Invalid token"); ("code", JNum (num 190))]]
                    JNull JNull (JRef 0)))) eq_refl eq_refl eq_refl).
  - exact (proj2 (proj2 (proj2 (callback_priority_order [[("id", JStr "123")]]
                    JNull JNull (JRef 0)))) eq_refl eq_refl eq_refl).
Defined.

(** C1 as the specification words it fails at the body [{ error: {} }]:
    there is no message, so it should resolve to the body, and the
    callback rejects with [undefined]. *)
Lemma callback_rejects_where_spec_resolves :
  callback [[("error", JRef 1)]; []] JNull JNull (JRef 0) = Rejected JUndefined /\
  Spec.call_outcome [[("error", JRef 1)]; []] JNull (JRef 0) = Resolved (JRef 0) /\
  callback [[("error", JRef 1)]; []] JNull JNull (JRef 0)
    <> Spec.call_outcome [[("error", JRef 1)]; []] JNull (JRef 0).
Proof. repeat split. discriminate. Qed.

(** C8, at the bodies [{ error: {} }] and [{ error: true }]. *)
Lemma callback_error_without_message_witness :
  callback [[("error", JRef 1)]; []] JNull JNull (JRef 0) = Rejected JUndefined /\
  callback [[("error", JBool true)]] JNull JNull (JRef 0) = Rejected JUndefined.
Proof.
  split.
  - exact (callback_error_without_message [[("error", JRef 1)]; []]
             JNull JNull (JRef 0) (JRef 1) eq_refl eq_refl eq_refl eq_refl).
  - exact (callback_error_without_message [[("error", JBool true)]]
             JNull JNull (JRef 0) (JBool true) eq_refl eq_refl eq_refl eq_refl).
Defined.

(** C9, at an [undefined] and at a [null] body. *)
Lemma callback_faults_on_null_body_witness :
  callback [] JNull JNull JUndefined
    = Faulted (JErr TypeError "Cannot read properties of undefined (reading 'error')") /\
  callback [] JNull JNull JNull
    = Faulted (JErr TypeError "Cannot read properties of null (reading 'error')").
Proof.
  split.
  - exact (proj1 (callback_faults_on_null_body [] JNull JNull JUndefined eq_refl) eq_refl).
  - exact (proj1 (callback_faults_on_null_body [] JNull JNull JNull eq_refl) eq_refl).
Defined.

(** C3, at [new FacebookAPI('TOKEN', 'SECRET')]. *)
Lemma constructor_requires_token_witness :
  "TOKEN" <> "" /\
  constructor (Some "TOKEN") (Some "SECRET") None None = Normal Sample.client.
Proof.
  assert (H : "TOKEN" <> "") by discriminate.
  split; [exact H|].
  exact (proj1 (proj2 (proj2 (constructor_requires_token (Some "SECRET") None None)))
           "TOKEN" H).
Defined.

(** C2, at the query [{a: 1, b: 2}] of a call of [/me]. *)
Lemma request_url_enumeration_order_witness :
  NoDup (map fst [("a", JNum (num 1)); ("b", JNum (num 2))]) /\
  (forall k, In k (map fst [("a", JNum (num 1)); ("b", JNum (num 2))]) ->
             is_array_index k = false) /\
  render_entries [[("a", JNum (num 1)); ("b", JNum (num 2))]]
                 [("a", JNum (num 1)); ("b", JNum (num 2))]
    = Normal [("a", "1"); ("b", "2")] /\
  fst (callAPI_request Sample.digest unit "/me" "GET" JNull (JRef 0)
         {| this := Sample.client;
            heap := [[("a", JNum (num 1)); ("b", JNum (num 2))]]; net := tt |})
    = Normal {| method := "GET"; json := true; body := JNull;
                uri := Spec.url Sample.client "/me" [("a", "1"); ("b", "2")]
                         (Sample.digest "sha256" "SECRET" "TOKEN") |} /\
  fst (callAPI_request Sample.digest unit "/me" "GET" JNull (JRef 0)
         {| this := Sample.client;
            heap := [[("a", JNum (num 1)); ("b", JNum (num 2))]]; net := tt |})
    = Normal {| method := "GET"; json := true; body := JNull;
                uri := "https://graph.facebook.com/v3.2/me?a=1&b=2&access_token=TOKEN&appsecret_proof=b613679a0814d9ec772f95d778c35fc5ff1697c493715653c6c712144292c5ad" |}.
Proof.
  assert (Hnd : NoDup (map fst [("a", JNum (num 1)); ("b", JNum (num 2))])).
  { simpl. repeat constructor; simpl; intuition discriminate. }
  assert (Hk : forall k, In k (map fst [("a", JNum (num 1)); ("b", JNum (num 2))]) ->
                         is_array_index k = false).
  { simpl. intros k [<-|[<-|[]]]; reflexivity. }
  destruct (request_url_enumeration_order Sample.digest unit "/me" "GET" JNull 0
              {| this := Sample.client;
                 heap := [[("a", JNum (num 1)); ("b", JNum (num 2))]];
                 net := tt |}) as (_ & _ & _ & _ & Hins & Hab).
  split; [exact Hnd|]. split; [exact Hk|]. split; [reflexivity|]. split.
  - exact (Hins Hnd Hk [("a", "1"); ("b", "2")] eq_refl).
  - exact (Hab eq_refl).
Defined.

(** C2 as the specification words it fails at the query [{b: 1, 1: 2}]:
    the key [1] is an array index and is enumerated before [b], which was
    inserted first. *)
Lemma request_url_not_insertion_order :
  render_entries [[("b", JNum (num 1)); ("1", JNum (num 2))]]
                 [("b", JNum (num 1)); ("1", JNum (num 2))]
    = Normal [("b", "1"); ("1", "2")] /\
  fst (callAPI_request Sample.digest unit "/me" "GET" JNull (JRef 0)
         {| this := Sample.client;
            heap := [[("b", JNum (num 1)); ("1", JNum (num 2))]]; net := tt |})
    = Normal {| method := "GET"; json := true; body := JNull;
                uri := "https://graph.facebook.com/v3.2/me?1=2&b=1&access_token=TOKEN&appsecret_proof=b613679a0814d9ec772f95d778c35fc5ff1697c493715653c6c712144292c5ad" |} /\
  Spec.url Sample.client "/me" [("b", "1"); ("1", "2")]
           (Sample.digest "sha256" "SECRET" "TOKEN")
    = "https://graph.facebook.com/v3.2/me?b=1&1=2&access_token=TOKEN&appsecret_proof=b613679a0814d9ec772f95d778c35fc5ff1697c493715653c6c712144292c5ad" /\
  fst (callAPI_request Sample.digest unit "/me" "GET" JNull (JRef 0)
         {| this := Sample.client;
            heap := [[("b", JNum (num 1)); ("1", JNum (num 2))]]; net := tt |})
    <> Normal {| method := "GET"; json := true; body := JNull;
                 uri := Spec.url Sample.client "/me" [("b", "1"); ("1", "2")]
                          (Sample.digest "sha256" "SECRET" "TOKEN") |}.
Proof.
  split; [reflexivity|]. split; [reflexivity|]. split; [reflexivity|].
  vm_compute. discriminate.
Qed.

(** C10, at the query [{}] of a call of [/me/messages]. *)
Lemma empty_query_url_witness :
  build_query [[]] (JRef 0) = Normal "?" /\
  fst (callAPI_request Sample.digest unit "/me/messages" "POST" JNull (JRef 0)
         {| this := Sample.client; heap := [[]]; net := tt |})
    = Normal {| method := "POST"; json := true; body := JNull;
                uri := "https://graph.facebook.com/v3.2/me/messages?access_token=TOKEN&appsecret_proof=b613679a0814d9ec772f95d778c35fc5ff1697c493715653c6c712144292c5ad" |}.
Proof.
  destruct (empty_query_url Sample.digest unit "/me/messages" "POST" JNull 0
              {| this := Sample.client; heap := [[]]; net := tt |} eq_refl)
    as (Hq & Hu & _).
  split; [exact Hq | exact Hu].
Defined.

(** X1, at the body [{ id: '123' }]. *)
Lemma resolved_only_with_body_witness :
  callback [[("id", JStr "123")]] JNull JNull (JRef 0) = Resolved (JRef 0) /\
  ToBoolean (member [[("id", JStr "123")]] (JRef 0) "error") = false.
Proof.
  split; [reflexivity|].
  exact (proj2 (proj2 (proj2 (resolved_only_with_body [[("id", JStr "123")]]
                                JNull JNull (JRef 0) (JRef 0) eq_refl)))).
Defined.

(** X2, at the query [{v: {toString: 1}}], whose value does not convert
    to a string. *)
Lemma rejected_reason_origin_witness :
  fst (callAPI Sample.digest unit Sample.transport "/me" (Some "GET") JNull (JRef 0)
         {| this := Sample.client;
            heap := [[("v", JRef 1)]; [("toString", JNum (num 1))]]; net := tt |})
    = Rejected cannot_convert /\
  build_query [[("v", JRef 1)]; [("toString", JNum (num 1))]] (JRef 0)
    = Throw cannot_convert.
Proof.
  split; [reflexivity|].
  destruct (rejected_reason_origin Sample.digest unit Sample.transport
              "/me" (Some "GET") JNull (JRef 0)
              {| this := Sample.client;
                 heap := [[("v", JRef 1)]; [("toString", JNum (num 1))]];
                 net := tt |}
              cannot_convert eq_refl) as [[H _] | [options [H _]]].
  - exact H.
  - discriminate H.
Defined.

(** X3, at a body that is a page of text. *)
Lemma primitive_body_resolves_witness :
  callback [] JNull JNull (JStr "<html>Bad Gateway</html>")
    = Resolved (JStr "<html>Bad Gateway</html>").
Proof.
  exact (proj1 (primitive_body_resolves [] JNull JNull eq_refl)
           "<html>Bad Gateway</html>").
Defined.

(** X4, at [callAPI('/me', 'DELETE', null, null)]. *)
Lemma given_arguments_pass_through_witness :
  callAPI_params unit (Some "DELETE") JNull JNull
    {| this := Sample.client; heap := []; net := tt |}
  = (("DELETE", JNull, JNull), {| this := Sample.client; heap := []; net := tt |}).
Proof.
  apply (given_arguments_pass_through unit "DELETE" JNull JNull
           {| this := Sample.client; heap := []; net := tt |});
    discriminate.
Defined.

(** X5, at the query [null]. *)
Lemma non_object_query_has_no_entries_witness :
  fst (callAPI_request Sample.digest unit "/me" "GET" JNull JNull
         {| this := Sample.client; heap := []; net := tt |})
  = Normal {| method := "GET"; json := true; body := JNull;
              uri := "https://graph.facebook.com/v3.2/me?access_token=TOKEN&appsecret_proof=b613679a0814d9ec772f95d778c35fc5ff1697c493715653c6c712144292c5ad" |}.
Proof.
  exact (proj2 (non_object_query_has_no_entries Sample.digest unit "/me" "GET"
                  JNull JNull {| this := Sample.client; heap := []; net := tt |} I)).
Defined.

(** X6, at the query [{b: 1, 1: 2}]. *)
Lemma query_entries_permuted_witness :
  exists entries,
    Permutation entries [("b", JNum (num 1)); ("1", JNum (num 2))] /\
    build_query [[("b", JNum (num 1)); ("1", JNum (num 2))]] (JRef 0)
    = match render_entries [[("b", JNum (num 1)); ("1", JNum (num 2))]] entries with
      | Normal es => Normal ("?" ++ Spec.serialize es)
      | Throw e => Throw e
      end.
Proof.
  apply (query_entries_permuted [[("b", JNum (num 1)); ("1", JNum (num 2))]] 0).
  simpl. repeat constructor; simpl; intuition discriminate.
Defined.

(** X7, at the value [x&access_token=stolen]. *)
Lemma query_values_not_escaped_witness :
  fst (callAPI_request Sample.digest unit "/me" "GET" JNull (JRef 0)
         {| this := Sample.client;
            heap := [[("q", JStr "x&access_token=stolen")]]; net := tt |})
  = fst (callAPI_request Sample.digest unit "/me" "GET" JNull (JRef 0)
           {| this := Sample.client;
              heap := [[("q", JStr "x"); ("access_token", JStr "stolen")]];
              net := tt |}).
Proof.
  apply (query_values_not_escaped Sample.digest unit "/me" "GET" JNull 0 0
           {| this := Sample.client;
              heap := [[("q", JStr "x&access_token=stolen")]]; net := tt |}
           {| this := Sample.client;
              heap := [[("q", JStr "x"); ("access_token", JStr "stolen")]];
              net := tt |}
           "q" "x" "access_token" "stolen");
    try reflexivity.
  discriminate.
Defined.

(** X8, at [new FacebookAPI('TOKEN', 'SECRET')] followed by a [get] and a
    [post]. *)
Lemma constructed_token_nonempty_witness :
  token (this unit
           (run Sample.digest unit Sample.transport
              [OpGet "/me" JUndefined; OpPost "/me/messages" JNull JUndefined]
              {| this := Sample.client; heap := []; net := tt |})) <> "" /\
  Some "TOKEN"
  = Some (token (this unit
                   (run Sample.digest unit Sample.transport
                      [OpGet "/me" JUndefined; OpPost "/me/messages" JNull JUndefined]
                      {| this := Sample.client; heap := []; net := tt |}))).
Proof.
  exact (constructed_token_nonempty Sample.digest unit Sample.transport
           (Some "TOKEN") (Some "SECRET") None None Sample.client
           [OpGet "/me" JUndefined; OpPost "/me/messages" JNull JUndefined]
           {| this := Sample.client; heap := []; net := tt |} eq_refl eq_refl).
Defined.

(** X10, at a query object that lives through a [get] with it. *)
Lemma existing_objects_untouched_witness :
  deref (heap unit
           (run Sample.digest unit Sample.transport [OpGet "/me" (JRef 0)]
              {| this := Sample.client; heap := [[("a", JNum (num 1))]]; net := tt |})) 0
  = [("a", JNum (num 1))].
Proof.
  exact (proj1 (existing_objects_untouched Sample.digest unit Sample.transport
                  [OpGet "/me" (JRef 0)]
                  {| this := Sample.client; heap := [[("a", JNum (num 1))]]; net := tt |}
                  0 (le_n 1))).
Defined.

(** X14, at [new FacebookAPI('TOKEN', 'SECRET')] and a call of
    [/me/messages]. *)
Lemma constructed_client_url_witness :
  fst (callAPI_request Sample.digest unit "/me/messages" "POST" JNull (JRef 0)
         {| this := Sample.client; heap := [[]]; net := tt |})
  = Normal {| method := "POST"; json := true; body := JNull;
              uri := "https://graph.facebook.com/v3.2/me/messages?access_token=TOKEN&appsecret_proof=b613679a0814d9ec772f95d778c35fc5ff1697c493715653c6c712144292c5ad" |}.
Proof.
  exact (constructed_client_url Sample.digest unit "TOKEN" (Some "SECRET")
           Sample.client "/me/messages" "POST" JNull 0
           {| this := Sample.client; heap := [[]]; net := tt |}
           eq_refl eq_refl eq_refl).
Defined.

(** X9, at a call with the query [{a: 1}] after a [get]. *)
Lemma signature_suffix_stable_witness :
  fst (callAPI_request Sample.digest unit "/me" "GET" JNull (JRef 0)
         (run Sample.digest unit Sample.transport [OpGet "/me" JUndefined]
            {| this := Sample.client; heap := [[("a", JNum (num 1))]]; net := tt |}))
  = Normal {| method := "GET"; json := true; body := JNull;
              uri := "https://graph.facebook.com/v3.2/me?a=1&access_token=TOKEN&appsecret_proof=b613679a0814d9ec772f95d778c35fc5ff1697c493715653c6c712144292c5ad" |}.
Proof.
  exact (signature_suffix_stable Sample.digest unit Sample.transport
           [OpGet "/me" JUndefined] "/me" "GET" JNull (JRef 0)
           {| this := Sample.client; heap := [[("a", JNum (num 1))]]; net := tt |}
           "?a=1&" eq_refl).
Defined.

(** X15, at the query [{a: 1}]. *)
Lemma query_string_shape_witness :
  exists rest,
    "?a=1&" = "?" ++ rest /\ (rest = "" \/ exists r, rest = r ++ "&").
Proof.
  exact (query_string_shape [[("a", JNum (num 1))]] (JRef 0) "?a=1&" eq_refl).
Defined.

(** C6, at [callAPI('/me', 'GET')]: the method is the one given, and the
    payload and the query are two new empty objects. *)
Lemma default_parameters_witness :
  callAPI_params unit (Some "GET") JUndefined JUndefined
    {| this := Sample.client; heap := [[("a", JNum (num 1))]]; net := tt |}
  = (("GET", JRef 1, JRef 2),
     {| this := Sample.client; heap := [[("a", JNum (num 1))]; []; []]; net := tt |}) /\
  JRef 1 <> JRef 2 /\
  (exists lp, JRef 1 = JRef lp /\ ~ allocated [[("a", JNum (num 1))]] lp /\
              allocated [[("a", JNum (num 1))]; []; []] lp /\
              deref [[("a", JNum (num 1))]; []; []] lp = []).
Proof.
  split; [reflexivity|].
  destruct (default_parameters Sample.digest unit Sample.transport) as (_ & H & _).
  specialize (H (Some "GET") JUndefined JUndefined
                {| this := Sample.client; heap := [[("a", JNum (num 1))]]; net := tt |}).
  cbv beta iota zeta delta [callAPI_params default_object bind ret alloc
                              heap this net length app] in H.
  destruct H as (_ & _ & _ & Hp & _ & Hpq & _).
  split; [exact (Hpq eq_refl eq_refl) | exact (Hp eq_refl)].
Defined.
